(** * Dead-page checker ([qa/book/dead_pages.py])

    A shallow embedding of the script that lists the Markdown files of the
    book which [SUMMARY.md] does not link, together with the properties of
    its three stages: the locator ([find_book_src]), the reference extractor
    ([parse_summary]) and the tree scanner ([find_dead_pages]), and of the
    driver [main].

    Modelling conventions.
    - Python [str] is [string]; characters are compared by code.
    - A [pathlib.PosixPath] is a record of an [absolute] flag and the list of
      its components.  All paths the script compares are results of
      [Path.resolve], which are absolute.
    - The file system is a finite tree of directories, regular files and
      symbolic links.  [Path.resolve] follows [os.path.realpath] in
      non-strict mode.
    - [set[Path]] is [gset PosixPath]; [list[Path]] is [list PosixPath].
    - An uncaught exception is a value of [result]; the interpreter turns it
      into exit status 1.

    Limits of the model.  Characters are bytes.  A path that starts with
    exactly two slashes is taken as absolute like any other, which is what
    [resolve] makes of it.  [stat] looks up the canonical path, so a [..]
    behind a missing component is not an error.  On a loop of links
    [resolve] returns the path left unresolved and no exception is raised.
    Errors of the operating system other than a missing file or a
    directory in place of a file are not modelled. *)

From Stdlib Require Import Ascii String.
From stdpp Require Import gmap strings list sorting pretty.

#[local] Set Warnings "-clear-no-such-hyp".

Local Open Scope string_scope.
Local Open Scope list_scope.

(** ** Python [str] operations used by the script *)

Module Str.

(** [not s] on a string: true for the empty string. *)
Definition is_empty (s : string) : bool :=
  match s with
  | EmptyString => true
  | String _ _ => false
  end.

(** [c in s] for a one-character needle. *)
Fixpoint contains (c : ascii) (s : string) : bool :=
  match s with
  | EmptyString => false
  | String d s' => if Ascii.eqb d c then true else contains c s'
  end.

(** [s.split(c)[0]]: the text before the first occurrence of [c], the
    whole string when [c] does not occur. *)
Fixpoint before (c : ascii) (s : string) : string :=
  match s with
  | EmptyString => EmptyString
  | String d s' => if Ascii.eqb d c then EmptyString else String d (before c s')
  end.

(** [s.startswith(p)]. *)
Fixpoint startswith (s p : string) {struct p} : bool :=
  match p with
  | EmptyString => true
  | String a p' =>
      match s with
      | EmptyString => false
      | String b s' => if Ascii.eqb a b then startswith s' p' else false
      end
  end.

(** [s.startswith((p1, ..., pn))]. *)
Definition startswith_any (s : string) (ps : list string) : bool :=
  existsb (startswith s) ps.

(** [s.endswith(suffix)]. *)
Fixpoint endswith (s suffix : string) : bool :=
  if String.eqb s suffix then true
  else match s with
       | EmptyString => false
       | String _ s' => endswith s' suffix
       end.

(** [s.split(sep)] for a one-character separator. *)
Fixpoint split (sep : ascii) (s : string) : list string :=
  match s with
  | EmptyString => [EmptyString]
  | String d s' =>
      if Ascii.eqb d sep then EmptyString :: split sep s'
      else match split sep s' with
           | [] => [String d EmptyString]
           | w :: ws => String d w :: ws
           end
  end.

(** [sep.join(ws)]. *)
Definition join (sep : string) (ws : list string) : string :=
  String.concat sep ws.

(** Comparison of characters and of strings by code point, [s1 <= s2]. *)
Definition ascii_leb (a b : ascii) : bool := (nat_of_ascii a <=? nat_of_ascii b)%nat.

End Str.

(** ** The link pattern [\[([^\]]+)\]\(([^)]+)\)] *)

Module Re.

(** A maximal run of characters different from [stop], followed by
    [stop]: the run and the text after the [stop] character.  This is how
    the greedy class [[^stop]+] followed by the literal [stop] matches: no
    shorter run can be followed by [stop], so there is nothing to
    backtrack to. *)
Fixpoint run_until (stop : ascii) (s : string) : option (string * string) :=
  match s with
  | EmptyString => None
  | String d s' =>
      if Ascii.eqb d stop then Some (EmptyString, s')
      else match run_until stop s' with
           | Some (run, rest) => Some (String d run, rest)
           | None => None
           end
  end.

(** A match of the pattern anchored at the start of [s]: group 2 and the
    length of the whole match. *)
Definition match_here (s : string) : option (string * nat) :=
  match s with
  | String "["%char s1 =>
      match run_until "]"%char s1 with
      | Some (label, String "("%char s2) =>
          match run_until ")"%char s2 with
          | Some (target, _) =>
              if Str.is_empty label || Str.is_empty target then None
              else Some (target, String.length label + String.length target + 4)
          | None => None
          end
      | _ => None
      end
  | _ => None
  end.

(** [finditer]: the matches from left to right, not overlapping; [skip]
    counts the characters of the current match still to be passed over. *)
Fixpoint finditer_from (skip : nat) (s : string) : list string :=
  match s with
  | EmptyString => []
  | String _ s' =>
      match skip with
      | S k => finditer_from k s'
      | O =>
          match match_here s with
          | Some (target, len) => target :: finditer_from (len - 1) s'
          | None => finditer_from 0 s'
          end
      end
  end.

(** [[m.group(2) for m in link_pattern.finditer(content)]]. *)
Definition finditer_group2 (content : string) : list string :=
  finditer_from 0 content.

End Re.

(** ** [pathlib.PosixPath] *)

Record PosixPath := mkPath { absolute : bool; parts : list string }.

#[global] Instance PosixPath_eq_dec : EqDecision PosixPath.
Proof. solve_decision. Defined.

#[global] Instance PosixPath_countable : Countable PosixPath.
Proof.
  apply (inj_countable' (fun p => (absolute p, parts p))
                        (fun q => mkPath (fst q) (snd q))).
  by intros [].
Defined.

Module Path.

(** A component kept by the parser: neither empty nor [.]. *)
Definition kept (c : string) : bool :=
  negb (String.eqb c "") && negb (String.eqb c ".").

(** [Path(s)]: the text is cut at [/]; empty components and [.] are
    dropped, [..] is kept. *)
Definition of_string (s : string) : PosixPath :=
  mkPath (Str.startswith s "/") (List.filter kept (Str.split "/" s)).

(** [p / s]: an absolute right operand replaces the left one. *)
Definition joinpath (p : PosixPath) (s : string) : PosixPath :=
  let q := of_string s in
  if absolute q then q else mkPath (absolute p) (parts p ++ parts q).

(** [p.parent]; the parent of a path without components is itself. *)
Definition parent (p : PosixPath) : PosixPath :=
  mkPath (absolute p) (removelast (parts p)).

(** [p.name]: the last component, empty when there is none. *)
Definition name (p : PosixPath) : string := List.last (parts p) "".

(** [str(p)]. *)
Definition to_string (p : PosixPath) : string :=
  if absolute p then "/" +:+ Str.join "/" (parts p)
  else match parts p with
       | [] => "."
       | _ => Str.join "/" (parts p)
       end.

(** [xs] without the leading [pre], when [pre] is a prefix of [xs]. *)
Fixpoint strip_prefix (pre xs : list string) : option (list string) :=
  match pre, xs with
  | [], _ => Some xs
  | _ :: _, [] => None
  | a :: pre', b :: xs' => if String.eqb a b then strip_prefix pre' xs' else None
  end.

(** [p.relative_to(base)]; [None] stands for [ValueError]. *)
Definition relative_to (p base : PosixPath) : option PosixPath :=
  if Bool.eqb (absolute p) (absolute base) then
    match strip_prefix (parts base) (parts p) with
    | Some rel => Some (mkPath false rel)
    | None => None
    end
  else None.

End Path.

Notation "p // s" := (Path.joinpath p s) (at level 40, left associativity).

(** ** Order of paths and [sorted] *)

Section Lex.
Context {A : Type} (le : A -> A -> bool).

(** Python's comparison of sequences: the first differing position
    decides, a proper prefix is smaller. *)
Fixpoint lex_leb (l1 l2 : list A) : bool :=
  match l1, l2 with
  | [], _ => true
  | _ :: _, [] => false
  | a :: l1', b :: l2' =>
      if le a b then (if le b a then lex_leb l1' l2' else true) else false
  end.
End Lex.

(** [s1 <= s2] on [str]. *)
Definition str_leb (s1 s2 : string) : bool :=
  lex_leb Str.ascii_leb (list_ascii_of_string s1) (list_ascii_of_string s2).

(** [p <= q] on paths: their component lists are compared.  The text of an
    absolute path starts with an empty component, which puts it before
    every relative one. *)
Definition path_leb (p q : PosixPath) : bool :=
  if Bool.eqb (absolute p) (absolute q) then lex_leb str_leb (parts p) (parts q)
  else absolute p.

(** [p <= q] as a relation. *)
Definition path_le (p q : PosixPath) : Prop := path_leb p q = true.

(** Insertion after the elements that are not greater: the sort is stable. *)
Fixpoint insert_path (x : PosixPath) (l : list PosixPath) : list PosixPath :=
  match l with
  | [] => [x]
  | y :: l' => if path_leb y x then y :: insert_path x l' else x :: y :: l'
  end.

(** [sorted(l)] on a list of paths. *)
Definition sorted (l : list PosixPath) : list PosixPath :=
  foldl (fun acc x => insert_path x acc) [] l.

(** ** The file system *)

#[local] Set Warnings "-register-all".

Inductive node :=
| File (text : string)
| Dir (entries : list (string * node))
| Symlink (target : string).

Module FS.

(** The entry called [name] in a directory listing. *)
Fixpoint entry (name : string) (es : list (string * node)) : option node :=
  match es with
  | [] => None
  | (n, x) :: es' => if String.eqb n name then Some x else entry name es'
  end.

(** [lstat] along a list of components: no link is followed. *)
Fixpoint lookup (n : node) (rel : list string) : option node :=
  match rel with
  | [] => Some n
  | c :: rel' =>
      match n with
      | Dir es =>
          match entry c es with
          | Some x => lookup x rel'
          | None => None
          end
      | _ => None
      end
  end.

(** The number of symbolic links of a tree. *)
Fixpoint symlinks (n : node) : nat :=
  match n with
  | File _ => 0
  | Symlink _ => 1
  | Dir es =>
      (fix go (es : list (string * node)) : nat :=
         match es with
         | [] => 0
         | (_, x) :: es' => symlinks x + go es'
         end) es
  end.

(** A name a directory entry can have: not empty, not [.] or [..], no
    [/] inside. *)
Definition valid_name (c : string) : bool :=
  Path.kept c && negb (String.eqb c "..") && negb (Str.contains "/" c).



(** [posixpath._joinrealpath] in non-strict mode: [path] is the resolved
    prefix, [rest] the components still to be walked.  [..] drops the last
    component of the resolved prefix, a link is replaced by the resolution
    of its text, a missing component is kept as it is.  [depth] bounds the
    links being resolved inside one another; the flag is false when the
    bound is reached, which is what a loop of links does. *)
Fixpoint joinrealpath (depth : nat) (root : node) (path rest : list string)
  : list string * bool :=
  match depth with
  | O => (path ++ rest, false)
  | S depth' =>
      (fix walk (path rest : list string) {struct rest} : list string * bool :=
         match rest with
         | [] => (path, true)
         | name :: rest' =>
             if negb (Path.kept name) then walk path rest'
             else if String.eqb name ".." then walk (removelast path) rest'
             else
               let newpath := path ++ [name] in
               match lookup root newpath with
               | Some (Symlink target) =>
                   let start := if Str.startswith target "/" then [] else path in
                   let '(path', ok) :=
                     joinrealpath depth' root start (Str.split "/" target) in
                   if ok then walk path' rest' else (path' ++ rest', false)
               | _ => walk newpath rest'
               end
         end) path rest
  end.

End FS.

(** What a run of the script depends on: the tree under [/], the working
    directory and the value of [__file__]. *)
Record World := mkWorld {
  root : node;
  cwd : list string;
  script_file : string
}.

Module Os.

(** [os.path.realpath]: a relative path starts from the working
    directory. *)
Definition realpath (w : World) (p : PosixPath) : list string :=
  fst (FS.joinrealpath (S (FS.symlinks (root w))) (root w)
         (if absolute p then [] else cwd w) (parts p)).

(** [p.resolve()]. *)
Definition resolve (w : World) (p : PosixPath) : PosixPath :=
  mkPath true (realpath w p).

(** [os.stat]: the node at the canonical path, links followed; a link left
    unresolved leads nowhere. *)
Definition stat (w : World) (p : PosixPath) : option node :=
  match FS.lookup (root w) (realpath w p) with
  | Some (Symlink _) => None
  | r => r
  end.

(** [p.exists()]. *)
Definition exists_ (w : World) (p : PosixPath) : bool :=
  match stat w p with
  | Some _ => true
  | None => false
  end.

(** [p.is_dir()]. *)
Definition is_dir (w : World) (p : PosixPath) : bool :=
  match stat w p with
  | Some (Dir _) => true
  | _ => false
  end.

(** The children of a directory that match [*.md], in listing order. *)
Fixpoint select_md (here : list string) (es : list (string * node))
  : list (list string) :=
  match es with
  | [] => []
  | (name, _) :: es' =>
      if Str.endswith name ".md" then (here ++ [name]) :: select_md here es'
      else select_md here es'
  end.

(** The walk of [rglob('*.md')] below a directory: the matching children
    of the directory, then the walk of each of its subdirectories.  A
    link to a directory is not entered. *)
Fixpoint walk_md (here : list string) (n : node) : list (list string) :=
  match n with
  | Dir es =>
      select_md here es ++
      (fix descend (es : list (string * node)) : list (list string) :=
         match es with
         | [] => []
         | (name, x) :: es' => walk_md (here ++ [name]) x ++ descend es'
         end) es
  | _ => []
  end.

(** [p.rglob('*.md')]: nothing when [p] is not a directory. *)
Definition rglob_md (w : World) (p : PosixPath) : list PosixPath :=
  match stat w p with
  | Some (Dir es) => map (mkPath (absolute p)) (walk_md (parts p) (Dir es))
  | _ => []
  end.

End Os.

(** ** Exceptions and the console *)

Inductive exn :=
| FileNotFoundError (msg : string)
| IsADirectoryError (msg : string)
| ValueError (msg : string).

Inductive result (A : Type) :=
| Ok (a : A)
| Raise (e : exn).

Arguments Ok {A} a.
Arguments Raise {A} e.

(** The two streams, one entry for each call of [print]. *)
Record Console := mkConsole { stdout : list string; stderr : list string }.

(** A computation that prints and may raise. *)
Definition IO (A : Type) : Type := Console -> Console * result A.

Module IO.

Definition ret {A} (a : A) : IO A := fun c => (c, Ok a).

Definition bind {A B} (m : IO A) (k : A -> IO B) : IO B :=
  fun c =>
    match m c with
    | (c', Ok a) => k a c'
    | (c', Raise e) => (c', Raise e)
    end.

(** A value or an exception of a function that does not print. *)
Definition lift {A} (r : result A) : IO A := fun c => (c, r).

(** [print(s)]. *)
Definition print (s : string) : IO unit :=
  fun c => (mkConsole (stdout c ++ [s]) (stderr c), Ok tt).

(** [print(s, file=sys.stderr)]. *)
Definition eprint (s : string) : IO unit :=
  fun c => (mkConsole (stdout c) (stderr c ++ [s]), Ok tt).

(** [for x in l: body(x)]. *)
Fixpoint for_each {A} (l : list A) (body : A -> IO unit) : IO unit :=
  match l with
  | [] => ret tt
  | x :: l' => bind (body x) (fun _ => for_each l' body)
  end.

End IO.

#[global] Instance IO_ret : MRet IO := @IO.ret.
#[global] Instance IO_bind : MBind IO := fun A B k m => IO.bind m k.

(** ** The script *)

(** [p.read_text()]. *)
Definition read_text (w : World) (p : PosixPath) : result string :=
  match Os.stat w p with
  | Some (File text) => Ok text
  | Some (Dir _) => Raise (IsADirectoryError (Path.to_string p))
  | _ => Raise (FileNotFoundError (Path.to_string p))
  end.

(** Lines 11-12: the path the locator tries. *)
Definition book_src_path_of (w : World) : PosixPath :=
  let script_dir := Path.parent (Os.resolve w (Path.of_string (script_file w))) in
  Path.parent (Path.parent script_dir) // "book" // "src".

(** Lines 9-15. *)
Definition find_book_src (w : World) : result PosixPath :=
  let book_src := book_src_path_of w in
  if negb (Os.exists_ w book_src) then
    Raise (FileNotFoundError
             ("Book source directory not found at " +:+ Path.to_string book_src))
  else Ok book_src.

(** The schemes of line 32. *)
Definition external_schemes : list string := ["http://"; "https://"; "mailto:"].

(** The text of a link target before its first [#] (lines 29-30). *)
Definition strip_fragment (target : string) : string :=
  if Str.contains "#" target then Str.before "#" target else target.

(** The test of lines 32 and 35 on a stripped target: it goes on to
    resolution. *)
Definition is_local (target : string) : bool :=
  negb (Str.startswith_any target external_schemes) && negb (Str.is_empty target).

(** Line 38. *)
Definition resolve_target (w : World) (summary_path : PosixPath)
           (target : string) : PosixPath :=
  Os.resolve w (Path.parent summary_path // target).

(** The link targets of a text: what the matches leave after the fragment
    is stripped and external and empty targets are dropped, in order of
    appearance. *)
Definition link_targets (content : string) : list string :=
  List.filter is_local (map strip_fragment (Re.finditer_group2 content)).

(** Lines 27-39, one turn of the loop: [files] after the link target
    [target] has been handled. *)
Definition add_target (w : World) (summary_path : PosixPath)
           (files : gset PosixPath) (target : string) : gset PosixPath :=
  let target :=
    if Str.contains "#" target then Str.before "#" target else target in
  if Str.startswith_any target external_schemes then files
  else if Str.is_empty target then files
  else
    let resolved := Os.resolve w (Path.parent summary_path // target) in
    {[ resolved ]} ∪ files.

(** Lines 18-41. *)
Definition parse_summary (w : World) (summary_path : PosixPath)
  : result (gset PosixPath) :=
  match read_text w summary_path with
  | Raise e => Raise e
  | Ok content =>
      Ok (foldl (add_target w summary_path) ∅ (Re.finditer_group2 content))
  end.

(** Lines 49-54, one turn of the loop: [dead] after the entry [md_file]
    has been handled. *)
Definition scan_entry (w : World) (summary_files : gset PosixPath)
           (dead : list PosixPath) (md_file : PosixPath) : list PosixPath :=
  let resolved := Os.resolve w md_file in
  if String.eqb (Path.name md_file) "SUMMARY.md" then dead
  else if decide (resolved ∈ summary_files) then dead
  else dead ++ [resolved].

(** The test of lines 51 and 53 on an entry of the walk: its canonical path
    is appended. *)
Definition is_dead (w : World) (summary_files : gset PosixPath)
           (md_file : PosixPath) : bool :=
  negb (String.eqb (Path.name md_file) "SUMMARY.md") &&
  bool_decide (Os.resolve w md_file ∉ summary_files).

(** Lines 46-54 for a given order of the walk. *)
Definition scan_entries (w : World) (summary_files : gset PosixPath)
           (walk : list PosixPath) : list PosixPath :=
  foldl (scan_entry w summary_files) [] walk.

(** Lines 44-56. *)
Definition find_dead_pages (w : World) (book_src : PosixPath)
           (summary_files : gset PosixPath) : list PosixPath :=
  sorted (scan_entries w summary_files (Os.rglob_md w book_src)).

(** Lines 84-86, one turn of the loop. *)
Definition print_page (book_src page : PosixPath) : IO unit :=
  match Path.relative_to page book_src with
  | Some rel_path => IO.print ("  " +:+ Path.to_string rel_path)
  | None =>
      IO.lift (Raise (ValueError
        (Path.to_string page +:+ " is not in the subpath of " +:+
         Path.to_string book_src)))
  end.

Definition newline : string := String (ascii_of_nat 10) EmptyString.

(** Lines 59-88. *)
Definition main (w : World) : IO Z :=
  match find_book_src w with
  | Raise (FileNotFoundError e) =>
      IO.eprint ("Error: " +:+ e) ;;
      mret 1%Z
  | Raise e => IO.lift (Raise e)
  | Ok book_src =>
      let summary_path := book_src // "SUMMARY.md" in
      if negb (Os.exists_ w summary_path) then
        IO.eprint ("Error: SUMMARY.md not found at " +:+ Path.to_string summary_path) ;;
        mret 1%Z
      else
        IO.print ("Checking for dead pages in: " +:+ Path.to_string book_src) ;;
        summary_files ← IO.lift (parse_summary w summary_path) ;
        IO.print ("Found " +:+ pretty (size summary_files) +:+ " files in SUMMARY.md") ;;
        let dead_pages := find_dead_pages w book_src summary_files in
        match dead_pages with
        | [] =>
            IO.print (newline +:+ "No dead pages found!") ;;
            mret 0%Z
        | _ :: _ =>
            IO.print (newline +:+ "Found " +:+ pretty (length dead_pages) +:+
                      " dead page(s) (not in SUMMARY.md):" +:+ newline) ;;
            IO.for_each dead_pages (print_page book_src) ;;
            mret 1%Z
        end
  end.

(** A run of the script from the shell: what was printed and how [main]
    ended. *)
Definition run (w : World) : Console * result Z := main w (mkConsole [] []).

(** [sys.exit(main())]: the value returned by [main], and 1 when an
    exception escapes. *)
Definition exit_status (w : World) : Z :=
  match snd (run w) with
  | Ok code => code
  | Raise _ => 1%Z
  end.

(** ** The notions of the specification

    The path of the table of contents, the success of the locator and the
    dead-page list of a run, as [main] computes them. *)

Definition summary_path_of (w : World) : PosixPath :=
  book_src_path_of w // "SUMMARY.md".

Definition locator_ok (w : World) : bool :=
  Os.exists_ w (book_src_path_of w) && Os.exists_ w (summary_path_of w).

Definition dead_page_list (w : World) : option (list PosixPath) :=
  if locator_ok w then
    match parse_summary w (summary_path_of w) with
    | Ok summary_files =>
        Some (find_dead_pages w (book_src_path_of w) summary_files)
    | Raise _ => None
    end
  else None.

(** A path that resolution leaves as it is when no link is met: absolute,
    made of valid names. *)
Definition canonical (p : PosixPath) : Prop :=
  absolute p = true /\ Forall (fun c => FS.valid_name c = true) (parts p).



(** The line of the report for a dead page (line 86). *)
Definition page_line (book_src page : PosixPath) : string :=
  match Path.relative_to page book_src with
  | Some rel_path => "  " +:+ Path.to_string rel_path
  | None => ""
  end.

(** The first three lines of the report (lines 72, 75 and 83). *)
Definition checking_line (book_src : PosixPath) : string :=
  "Checking for dead pages in: " +:+ Path.to_string book_src.

Definition found_line (summary_files : gset PosixPath) : string :=
  "Found " +:+ pretty (size summary_files) +:+ " files in SUMMARY.md".

Definition dead_header (dead_pages : list PosixPath) : string :=
  newline +:+ "Found " +:+ pretty (length dead_pages) +:+
  " dead page(s) (not in SUMMARY.md):" +:+ newline.

(** A message names a path when the text of the path occurs in it. *)
Definition mentions (msg path : string) : Prop :=
  exists before after, msg = before +:+ path +:+ after.

(** ** Sample trees

    The repository as the script expects it: the script at
    [/repo/qa/book/dead_pages.py], the book at [/repo/book/src] with the
    given text of [SUMMARY.md] and the given further entries. *)

Definition book_tree (summary : string) (pages : list (string * node)) : node :=
  Dir [("repo",
        Dir [("qa", Dir [("book", Dir [("dead_pages.py", File "")])]);
             ("book", Dir [("src", Dir (("SUMMARY.md", File summary) :: pages))])])].

Definition book_world (summary : string) (pages : list (string * node)) : World :=
  mkWorld (book_tree summary pages) [] "/repo/qa/book/dead_pages.py".

Definition book_src_path : PosixPath := mkPath true ["repo"; "book"; "src"].

Definition summary_md_path : PosixPath :=
  mkPath true ["repo"; "book"; "src"; "SUMMARY.md"].



(** Scenario A of the specification. *)
Definition scenario_a : World :=
  book_world "[Intro](intro.md) [Guide](guide/start.md)"
    [("intro.md", File ""); ("orphan.md", File "");
     ("guide", Dir [("start.md", File "")])].

(** A repository without its book. *)
Definition bookless_world : World :=
  mkWorld (Dir [("repo", Dir [("qa", Dir [("book", Dir [("dead_pages.py", File "")])])])])
          [] "/repo/qa/book/dead_pages.py".

(** * Properties *)

(** ** The order of paths *)

Section LexOrder.
Context {A : Type} (le : A -> A -> bool).
Hypothesis le_total : forall a b, le a b = true \/ le b a = true.
Hypothesis le_antisym : forall a b, le a b = true -> le b a = true -> a = b.
Hypothesis le_trans : forall a b c, le a b = true -> le b c = true -> le a c = true.

Lemma lex_leb_total l1 l2 : lex_leb le l1 l2 = true \/ lex_leb le l2 l1 = true.
Proof.
  revert l2; induction l1 as [|a l1 IH]; intros [|b l2]; simpl; auto.
  destruct (le_total a b) as [H|H]; rewrite H;
    destruct (le b a) eqn:E1; destruct (le a b) eqn:E2; auto; discriminate.
Qed.

Lemma lex_leb_antisym l1 l2 :
  lex_leb le l1 l2 = true -> lex_leb le l2 l1 = true -> l1 = l2.
Proof.
  revert l2; induction l1 as [|a l1 IH]; intros [|b l2]; simpl; try done.
  destruct (le a b) eqn:E1; destruct (le b a) eqn:E2; try done.
  intros H1 H2. f_equal; auto.
Qed.

Lemma lex_leb_trans l1 l2 l3 :
  lex_leb le l1 l2 = true -> lex_leb le l2 l3 = true -> lex_leb le l1 l3 = true.
Proof.
  revert l2 l3; induction l1 as [|a l1 IH]; intros [|b l2] [|c l3]; simpl; try done.
  destruct (le a b) eqn:Eab; [|done].
  destruct (le b c) eqn:Ebc; [|by destruct (le b a)].
  rewrite (le_trans a b c Eab Ebc).
  destruct (le b a) eqn:Eba.
  - assert (a = b) by auto; subst b.
    destruct (le c a) eqn:Eca; [|done]. apply IH.
  - intros _ H. destruct (le c a) eqn:Eca; [|done].
    rewrite (le_trans c a b Eca Eab) in H.
    by rewrite (le_trans b c a Ebc Eca) in Eba.
Qed.
End LexOrder.

Lemma ascii_leb_total a b : Str.ascii_leb a b = true \/ Str.ascii_leb b a = true.
Proof.
  unfold Str.ascii_leb.
  destruct (Nat.le_ge_cases (nat_of_ascii a) (nat_of_ascii b));
    [left|right]; by apply Nat.leb_le.
Qed.

Lemma ascii_leb_antisym a b :
  Str.ascii_leb a b = true -> Str.ascii_leb b a = true -> a = b.
Proof.
  unfold Str.ascii_leb. intros H1%Nat.leb_le H2%Nat.leb_le.
  rewrite <- (ascii_nat_embedding a), <- (ascii_nat_embedding b).
  f_equal. lia.
Qed.

Lemma ascii_leb_trans a b c :
  Str.ascii_leb a b = true -> Str.ascii_leb b c = true -> Str.ascii_leb a c = true.
Proof.
  unfold Str.ascii_leb. intros H1%Nat.leb_le H2%Nat.leb_le.
  apply Nat.leb_le. lia.
Qed.

Lemma str_leb_total s1 s2 : str_leb s1 s2 = true \/ str_leb s2 s1 = true.
Proof. apply lex_leb_total, ascii_leb_total. Qed.

Lemma str_leb_antisym s1 s2 : str_leb s1 s2 = true -> str_leb s2 s1 = true -> s1 = s2.
Proof.
  intros H1 H2.
  rewrite <- (string_of_list_ascii_of_string s1), <- (string_of_list_ascii_of_string s2).
  f_equal. eapply lex_leb_antisym; eauto using ascii_leb_antisym.
Qed.

Lemma str_leb_trans s1 s2 s3 :
  str_leb s1 s2 = true -> str_leb s2 s3 = true -> str_leb s1 s3 = true.
Proof.
  apply lex_leb_trans; eauto using ascii_leb_antisym, ascii_leb_trans.
Qed.

#[global] Instance path_le_dec p q : Decision (path_le p q).
Proof. unfold path_le. apply _. Defined.

#[global] Instance path_le_total : Total path_le.
Proof.
  intros [a ps] [b qs]. unfold path_le, path_leb; simpl.
  destruct a, b; simpl; auto; apply lex_leb_total, str_leb_total.
Qed.

#[global] Instance path_le_antisym : AntiSymm (=) path_le.
Proof.
  intros [a ps] [b qs]. unfold path_le, path_leb; simpl.
  destruct a, b; simpl; try done; intros H1 H2; f_equal;
    eapply lex_leb_antisym; eauto using str_leb_antisym.
Qed.

#[global] Instance path_le_trans : Transitive path_le.
Proof.
  intros [a ps] [b qs] [c rs]. unfold path_le, path_leb; simpl.
  destruct a, b, c; simpl; try done;
    apply lex_leb_trans; eauto using str_leb_antisym, str_leb_trans.
Qed.

(** ** [sorted] *)

Lemma insert_path_Permutation x l : insert_path x l ≡ₚ x :: l.
Proof.
  induction l as [|y l IH]; simpl; [done|].
  destruct (path_leb y x); [|done].
  rewrite IH. apply perm_swap.
Qed.




Lemma foldl_insert_path_Permutation l acc :
  foldl (fun acc x => insert_path x acc) acc l ≡ₚ acc ++ l.
Proof.
  revert acc; induction l as [|x l IH]; intros acc; simpl.
  - by rewrite app_nil_r.
  - rewrite IH, insert_path_Permutation. simpl. apply Permutation_middle.
Qed.


Lemma sorted_Permutation l : sorted l ≡ₚ l.
Proof. unfold sorted. by rewrite foldl_insert_path_Permutation. Qed.

Lemma sorted_elem_of x l : x ∈ sorted l <-> x ∈ l.
Proof. by rewrite sorted_Permutation. Qed.


(** ** Strings *)

Lemma before_absent c s : Str.contains c s = false -> Str.before c s = s.
Proof.
  induction s as [|d s IH]; simpl; [done|].
  destruct (Ascii.eqb d c); [done|]. intros H. by rewrite IH.
Qed.

Lemma strip_fragment_before t : strip_fragment t = Str.before "#" t.
Proof.
  unfold strip_fragment. destruct (Str.contains "#" t) eqn:E; [done|].
  by rewrite before_absent.
Qed.


Lemma contains_before c s : Str.contains c (Str.before c s) = false.
Proof.
  induction s as [|d s IH]; simpl; [done|].
  destruct (Ascii.eqb d c) eqn:E; simpl; [done|]. by rewrite E.
Qed.

Lemma strip_fragment_idemp t : strip_fragment (strip_fragment t) = strip_fragment t.
Proof.
  rewrite !strip_fragment_before. apply before_absent, contains_before.
Qed.

(** ** The loops as comprehensions *)

Lemma add_target_eq w sp files t :
  add_target w sp files t =
  if is_local (strip_fragment t)
  then {[ resolve_target w sp (strip_fragment t) ]} ∪ files
  else files.
Proof.
  unfold add_target, is_local, resolve_target. fold (strip_fragment t).
  destruct (Str.startswith_any _ _); [done|].
  by destruct (Str.is_empty _).
Qed.

Lemma foldl_add_target w sp ts files :
  foldl (add_target w sp) files ts =
  list_to_set (map (resolve_target w sp)
                   (List.filter is_local (map strip_fragment ts))) ∪ files.
Proof.
  revert files; induction ts as [|t ts IH]; intros files; simpl.
  - set_solver.
  - rewrite IH, add_target_eq.
    destruct (is_local (strip_fragment t)); simpl; set_solver.
Qed.

(** [parse_summary] returns the set of the resolved link targets of the
    text it reads. *)
Lemma parse_summary_eq w sp content :
  read_text w sp = Ok content ->
  parse_summary w sp =
  Ok (list_to_set (map (resolve_target w sp) (link_targets content))).
Proof.
  intros H. unfold parse_summary. rewrite H, foldl_add_target.
  unfold link_targets. by rewrite union_empty_r_L.
Qed.

Lemma scan_entry_eq w refs dead e :
  scan_entry w refs dead e =
  if is_dead w refs e then dead ++ [Os.resolve w e] else dead.
Proof.
  unfold scan_entry, is_dead.
  destruct (String.eqb _ _); simpl; [done|].
  destruct (decide (Os.resolve w e ∈ refs)) as [Hin|Hin].
  - by rewrite bool_decide_eq_false_2 by (by intros ?).
  - by rewrite bool_decide_eq_true_2.
Qed.

Lemma foldl_scan_entry w refs walk dead :
  foldl (scan_entry w refs) dead walk =
  dead ++ map (Os.resolve w) (List.filter (is_dead w refs) walk).
Proof.
  revert dead; induction walk as [|e walk IH]; intros dead; simpl.
  - by rewrite app_nil_r.
  - rewrite IH, scan_entry_eq. destruct (is_dead w refs e); simpl; [|done].
    by rewrite <- app_assoc.
Qed.

Lemma scan_entries_eq w refs walk :
  scan_entries w refs walk = map (Os.resolve w) (List.filter (is_dead w refs) walk).
Proof. apply foldl_scan_entry. Qed.

Lemma is_dead_true w refs e :
  is_dead w refs e = true <->
  Path.name e <> "SUMMARY.md" /\ (Os.resolve w e ∉ refs).
Proof.
  unfold is_dead. rewrite andb_true_iff, negb_true_iff, String.eqb_neq.
  by rewrite bool_decide_eq_true.
Qed.

(** An element of the dead-page list is the canonical path of an entry of
    the walk that is not named [SUMMARY.md] and is not referenced. *)
Lemma elem_of_find_dead_pages w book_src refs p :
  p ∈ find_dead_pages w book_src refs <->
  exists e, e ∈ Os.rglob_md w book_src /\ Path.name e <> "SUMMARY.md" /\
            (Os.resolve w e ∉ refs) /\ p = Os.resolve w e.
Proof.
  unfold find_dead_pages. rewrite sorted_elem_of, scan_entries_eq.
  rewrite list_elem_of_In, in_map_iff. split.
  - intros (e & <- & [He Hd]%filter_In). exists e.
    apply is_dead_true in Hd as [? ?]. by rewrite list_elem_of_In.
  - intros (e & He & Hn & Hr & ->). exists e. split; [done|].
    apply filter_In. split; [by apply list_elem_of_In|]. by apply is_dead_true.
Qed.

(** ** The reference extractor *)






(** The result of [parse_summary] from the list of resolved targets. *)
Lemma parse_summary_of_list w sp content l :
  read_text w sp = Ok content ->
  map (resolve_target w sp) (link_targets content) = l ->
  parse_summary w sp = Ok (list_to_set l).
Proof. intros H <-. by apply parse_summary_eq. Qed.


Lemma elem_of_parse_summary w sp content p :
  read_text w sp = Ok content ->
  (exists refs, parse_summary w sp = Ok refs /\ p ∈ refs) <->
  exists t, t ∈ Re.finditer_group2 content /\
            is_local (strip_fragment t) = true /\
            p = resolve_target w sp (strip_fragment t).
Proof.
  intros Hread. rewrite (parse_summary_eq _ _ _ Hread). split.
  - intros (refs & [= <-] & Hp). revert Hp.
    rewrite elem_of_list_to_set, list_elem_of_In, in_map_iff.
    intros (t' & <- & Ht'). unfold link_targets in Ht'.
    apply filter_In in Ht' as [(t & <- & Ht)%in_map_iff Hloc].
    exists t. by rewrite list_elem_of_In.
  - intros (t & Ht & Hloc & ->). eexists. split; [done|].
    rewrite elem_of_list_to_set, list_elem_of_In. apply in_map.
    unfold link_targets. apply filter_In. split; [|done].
    apply in_map. by apply list_elem_of_In.
Qed.

(** C5.  A target that starts with [http://], [https://] or [mailto:]
    once its fragment is stripped is discarded: its turn of the loop leaves
    the set as it is, and every element of the set [parse_summary] returns
    is the resolution of a matched target that has none of these
    prefixes. *)
Theorem external_targets_discarded w sp content :
  read_text w sp = Ok content ->
  (forall files t,
      Str.startswith_any (strip_fragment t) external_schemes = true ->
      add_target w sp files t = files) /\
  exists refs,
    parse_summary w sp = Ok refs /\
    forall p, p ∈ refs ->
      exists t, t ∈ Re.finditer_group2 content /\
                Str.startswith_any (strip_fragment t) external_schemes = false /\
                p = resolve_target w sp (strip_fragment t).
Proof.
  intros Hread. split.
  - intros files t Hext. rewrite add_target_eq. unfold is_local. by rewrite Hext.
  - eexists. split; [by apply parse_summary_eq|].
    intros p Hp.
    destruct (proj1 (elem_of_parse_summary w sp content p Hread))
      as (t & Ht & Hloc & ->).
    { eexists. split; [by apply parse_summary_eq|done]. }
    exists t. split; [done|]. split; [|done].
    unfold is_local in Hloc. apply andb_true_iff in Hloc as [Hloc _].
    by apply negb_true_iff.
Qed.

Lemma external_targets_discarded_witness :
  let content := "[x](https://example.com/x.md) [i](intro.md)" in
  let w := book_world content [] in
  read_text w summary_md_path = Ok content /\
  ((forall files t,
       Str.startswith_any (strip_fragment t) external_schemes = true ->
       add_target w summary_md_path files t = files) /\
   exists refs,
     parse_summary w summary_md_path = Ok refs /\
     forall p, p ∈ refs ->
       exists t, t ∈ Re.finditer_group2 content /\
                 Str.startswith_any (strip_fragment t) external_schemes = false /\
                 p = resolve_target w summary_md_path (strip_fragment t)).
Proof.
  intros content w. split; [reflexivity|].
  apply (external_targets_discarded w summary_md_path content). reflexivity.
Defined.

(** A text whose only link is [https://example.com/x.md] gives the empty
    set. *)
Example external_only_empty :
  let content := "[x](https://example.com/x.md)" in
  parse_summary (book_world content []) summary_md_path = Ok ∅.
Proof.
  intros content.
  by rewrite (parse_summary_of_list _ _ content []) by (vm_compute; reflexivity).
Qed.






Example absolute_target_path :
  Os.resolve (book_world "" []) (Path.of_string (strip_fragment "/etc/notes.md#top")) =
  mkPath true ["etc"; "notes.md"].
Proof. reflexivity. Qed.

(** Every matched target that is local once stripped is inserted, whatever
    its extension. *)
Lemma local_targets_inserted w sp content t :
  read_text w sp = Ok content ->
  t ∈ Re.finditer_group2 content ->
  is_local (strip_fragment t) = true ->
  exists refs, parse_summary w sp = Ok refs /\
               resolve_target w sp (strip_fragment t) ∈ refs.
Proof.
  intros Hread Ht Hloc. apply (elem_of_parse_summary w sp content _ Hread).
  by exists t.
Qed.

(** C10.  [parse_summary] does not look at the extension of a target: with
    the text [[pic](images/pic.png)] the set it returns contains
    [images/pic.png] under the book, a path that does not end in [.md]. *)
Theorem no_extension_filter :
  let content := "[pic](images/pic.png)" in
  let w := book_world content [] in
  let pic := mkPath true ["repo"; "book"; "src"; "images"; "pic.png"] in
  read_text w summary_md_path = Ok content /\
  Re.finditer_group2 content = ["images/pic.png"] /\
  exists refs,
    parse_summary w summary_md_path = Ok refs /\
    pic ∈ refs /\
    Str.endswith (Path.name pic) ".md" = false.
Proof.
  intros content w pic. split; [reflexivity|]. split; [reflexivity|].
  assert (Hread : read_text w summary_md_path = Ok content) by reflexivity.
  assert (Ht : "images/pic.png" ∈ Re.finditer_group2 content).
  { replace (Re.finditer_group2 content) with ["images/pic.png"] by reflexivity.
    apply list_elem_of_here. }
  assert (Hloc : is_local (strip_fragment "images/pic.png") = true) by reflexivity.
  destruct (local_targets_inserted w summary_md_path content "images/pic.png"
              Hread Ht Hloc) as (refs & Hrefs & Hin).
  exists refs. split; [exact Hrefs|]. split; [exact Hin|reflexivity].
Qed.

(** ** The tree scanner *)




(** ** The driver *)

Lemma find_book_src_missing w :
  Os.exists_ w (book_src_path_of w) = false ->
  find_book_src w =
  Raise (FileNotFoundError
           ("Book source directory not found at " +:+
            Path.to_string (book_src_path_of w))).
Proof. intros H. unfold find_book_src. by rewrite H. Qed.

Lemma find_book_src_found w :
  Os.exists_ w (book_src_path_of w) = true ->
  find_book_src w = Ok (book_src_path_of w).
Proof. intros H. unfold find_book_src. by rewrite H. Qed.

(** The run when the book directory is missing. *)
Lemma run_book_missing w :
  Os.exists_ w (book_src_path_of w) = false ->
  run w =
  (mkConsole [] ["Error: " +:+ ("Book source directory not found at " +:+
                                Path.to_string (book_src_path_of w))],
   Ok 1%Z).
Proof.
  intros H. unfold run, main. by rewrite (find_book_src_missing w H).
Qed.

(** The run when the book directory is there and [SUMMARY.md] is not. *)
Lemma run_summary_missing w :
  Os.exists_ w (book_src_path_of w) = true ->
  Os.exists_ w (summary_path_of w) = false ->
  run w =
  (mkConsole [] ["Error: SUMMARY.md not found at " +:+
                 Path.to_string (summary_path_of w)],
   Ok 1%Z).
Proof.
  intros H1 H2. unfold run, main. rewrite (find_book_src_found w H1).
  fold (summary_path_of w). by rewrite H2.
Qed.

(** The run when [SUMMARY.md] cannot be read. *)
Lemma run_summary_unreadable w e :
  locator_ok w = true ->
  parse_summary w (summary_path_of w) = Raise e ->
  snd (run w) = Raise e.
Proof.
  unfold locator_ok. intros [H1 H2]%andb_true_iff Hp.
  unfold run, main. rewrite (find_book_src_found w H1).
  fold (summary_path_of w). rewrite H2. simpl.
  unfold mbind, IO_bind, IO.bind, IO.print, IO.lift. simpl. by rewrite Hp.
Qed.

Lemma for_each_status {A} (l : list A) (body : A -> IO unit) c :
  snd (IO.for_each l body c) = Ok tt \/ exists e, snd (IO.for_each l body c) = Raise e.
Proof.
  revert c; induction l as [|x l IH]; intros c; simpl; [by left|].
  unfold IO.bind. destruct (body x c) as [c' [[]|e]]; [apply IH|eauto].
Qed.

(** The run once the set of references is there. *)
Lemma run_scanned w refs :
  locator_ok w = true ->
  parse_summary w (summary_path_of w) = Ok refs ->
  match find_dead_pages w (book_src_path_of w) refs with
  | [] => snd (run w) = Ok 0%Z
  | _ :: _ => snd (run w) = Ok 1%Z \/ exists e, snd (run w) = Raise e
  end.
Proof.
  unfold locator_ok. intros [H1 H2]%andb_true_iff Hp.
  unfold run, main. rewrite (find_book_src_found w H1).
  fold (summary_path_of w). rewrite H2. simpl.
  unfold mbind, IO_bind, IO.bind, IO.print, IO.lift. simpl. rewrite Hp.
  destruct (find_dead_pages w (book_src_path_of w) refs) as [|p l] eqn:E; [done|].
  match goal with
  | |- context [IO.for_each ?l ?b ?c] =>
      destruct (for_each_status l b c) as [Hs|[e Hs]];
      destruct (IO.for_each l b c) as [c' r]; simpl in Hs; subst r
  end; [by left|right; by exists e].
Qed.

Lemma exit_status_cases w :
  match dead_page_list w with
  | Some [] => exit_status w = 0%Z
  | Some (_ :: _) => exit_status w = 1%Z
  | None =>
      exit_status w = 1%Z /\
      (locator_ok w = true -> exists e, parse_summary w (summary_path_of w) = Raise e)
  end.
Proof.
  unfold dead_page_list, exit_status.
  destruct (locator_ok w) eqn:Hloc.
  - destruct (parse_summary w (summary_path_of w)) as [refs|e] eqn:Hp.
    + pose proof (run_scanned w refs Hloc Hp) as H.
      destruct (find_dead_pages w (book_src_path_of w) refs) as [|p l].
      * by rewrite H.
      * destruct H as [H|[e H]]; by rewrite H.
    + rewrite (run_summary_unreadable w e Hloc Hp). eauto.
  - split; [|done]. unfold locator_ok in Hloc.
    destruct (Os.exists_ w (book_src_path_of w)) eqn:H1.
    + simpl in Hloc. by rewrite (run_summary_missing w H1 Hloc).
    + by rewrite (run_book_missing w H1).
Qed.



(** ** Resolution of paths *)

Lemma joinrealpath_nil d root path :
  FS.joinrealpath (S d) root path [] = (path, true).
Proof. reflexivity. Qed.

Lemma joinrealpath_cons d root path name rest :
  FS.joinrealpath (S d) root path (name :: rest) =
  if negb (Path.kept name) then FS.joinrealpath (S d) root path rest
  else if String.eqb name ".." then FS.joinrealpath (S d) root (removelast path) rest
  else
    match FS.lookup root (path ++ [name]) with
    | Some (Symlink target) =>
        let start := if Str.startswith target "/" then [] else path in
        let '(path', ok) := FS.joinrealpath d root start (Str.split "/" target) in
        if ok then FS.joinrealpath (S d) root path' rest else (path' ++ rest, false)
    | _ => FS.joinrealpath (S d) root (path ++ [name]) rest
    end.
Proof. reflexivity. Qed.

Lemma joinrealpath_app d root r1 r2 path :
  FS.joinrealpath (S d) root path (r1 ++ r2) =
  let '(p1, ok) := FS.joinrealpath (S d) root path r1 in
  if ok then FS.joinrealpath (S d) root p1 r2 else (p1 ++ r2, false).
Proof.
  revert path; induction r1 as [|name r1 IH]; intros path.
  - by rewrite joinrealpath_nil.
  - rewrite <- app_comm_cons, !joinrealpath_cons.
    destruct (negb (Path.kept name)); [apply IH|].
    destruct (String.eqb name ".."); [apply IH|].
    destruct (FS.lookup root (path ++ [name])) as [[t|es|target]|]; try apply IH.
    cbv zeta.
    destruct (FS.joinrealpath d root _ (Str.split "/" target)) as [p' [|]];
      [apply IH|].
    by rewrite app_assoc.
Qed.

Lemma lookup_app n a b :
  FS.lookup n (a ++ b) =
  match FS.lookup n a with
  | Some x => FS.lookup x b
  | None => None
  end.
Proof.
  revert n; induction a as [|c a IH]; intros n; simpl; [done|].
  destruct n as [t|es|t]; try done.
  destruct (FS.entry c es); [apply IH|done].
Qed.

Lemma lookup_below_file n a c t :
  FS.lookup n a = Some (File t) -> FS.lookup n (a ++ [c]) = None.
Proof. intros H. by rewrite lookup_app, H. Qed.

(** Nothing exists below a regular file. *)
Lemma exists_below_file w p t :
  Os.stat w p = Some (File t) ->
  Os.exists_ w (p // "SUMMARY.md") = false.
Proof.
  unfold Os.exists_, Os.stat, Os.realpath. intros H.
  change (p // "SUMMARY.md") with (mkPath (absolute p) (parts p ++ ["SUMMARY.md"])).
  cbn [absolute parts]. rewrite joinrealpath_app.
  destruct (FS.joinrealpath _ (root w) _ (parts p)) as [p1 ok]; simpl in H.
  assert (Hp1 : FS.lookup (root w) p1 = Some (File t)).
  { destruct (FS.lookup (root w) p1) as [[]|]; congruence. }
  assert (Hnone : FS.lookup (root w) (p1 ++ ["SUMMARY.md"]) = None)
    by (by apply lookup_below_file with t).
  destruct ok.
  - rewrite joinrealpath_cons.
    change (negb (Path.kept "SUMMARY.md")) with false.
    change (String.eqb "SUMMARY.md" "..") with false.
    cbv iota. rewrite Hnone, joinrealpath_nil. simpl. by rewrite Hnone.
  - simpl. by rewrite Hnone.
Qed.

Lemma append_assoc (s1 s2 s3 : string) : (s1 +:+ s2) +:+ s3 = s1 +:+ (s2 +:+ s3).
Proof.
  induction s1 as [|a s1 IH]; [reflexivity|].
  change (String a ((s1 +:+ s2) +:+ s3) = String a (s1 +:+ (s2 +:+ s3))).
  by f_equal.
Qed.

Lemma append_nil_r (s : string) : s +:+ "" = s.
Proof.
  induction s as [|a s IH]; [reflexivity|].
  change (String a (s +:+ "") = String a s). by f_equal.
Qed.

Lemma concat_snoc sep ps c :
  String.concat sep (ps ++ [c]) =
  String.concat sep ps +:+ (match ps with [] => "" | _ => sep end +:+ c).
Proof.
  induction ps as [|a ps IH]; [done|].
  destruct ps as [|b ps]; [done|].
  change (String.concat sep ((a :: b :: ps) ++ [c]))
    with (a +:+ sep +:+ String.concat sep ((b :: ps) ++ [c])).
  rewrite IH.
  change (String.concat sep (a :: b :: ps))
    with (a +:+ sep +:+ String.concat sep (b :: ps)).
  by rewrite !append_assoc.
Qed.

Lemma book_src_absolute w : absolute (book_src_path_of w) = true.
Proof. reflexivity. Qed.

Lemma to_string_summary_path w :
  exists after,
    Path.to_string (summary_path_of w) =
    Path.to_string (book_src_path_of w) +:+ after.
Proof.
  unfold summary_path_of.
  change (book_src_path_of w // "SUMMARY.md")
    with (mkPath (absolute (book_src_path_of w))
                 (parts (book_src_path_of w) ++ ["SUMMARY.md"])).
  unfold Path.to_string. cbn [absolute parts]. rewrite book_src_absolute.
  unfold Str.join. rewrite concat_snoc. eexists. by rewrite append_assoc.
Qed.

(** C3.  When the path of the book is not a directory, the run prints
    nothing on standard output, prints one line on standard error that
    starts with [Error:] and names the path, and [main] returns 1 without
    raising.  When the path does not exist at all it is [find_book_src]
    that fails, with a [FileNotFoundError] whose message ends with the
    path. *)
Theorem missing_book_src_reported w :
  Os.is_dir w (book_src_path_of w) = false ->
  exists msg,
    run w = (mkConsole [] ["Error: " +:+ msg], Ok 1%Z) /\
    mentions msg (Path.to_string (book_src_path_of w)) /\
    (Os.exists_ w (book_src_path_of w) = false ->
     find_book_src w = Raise (FileNotFoundError msg) /\
     msg = "Book source directory not found at " +:+
           Path.to_string (book_src_path_of w)).
Proof.
  intros Hdir.
  destruct (Os.exists_ w (book_src_path_of w)) eqn:Hex.
  - exists ("SUMMARY.md not found at " +:+ Path.to_string (summary_path_of w)).
    assert (Hsum : Os.exists_ w (summary_path_of w) = false).
    { unfold Os.is_dir in Hdir. unfold Os.exists_ in Hex.
      destruct (Os.stat w (book_src_path_of w)) as [[t|es|t]|] eqn:Hst; try done.
      - by apply exists_below_file with t.
      - unfold Os.stat in Hst.
        by destruct (FS.lookup (root w) (Os.realpath w (book_src_path_of w)))
          as [[]|]. }
    split; [by apply run_summary_missing|]. split; [|done].
    destruct (to_string_summary_path w) as [after ->].
    by exists "SUMMARY.md not found at ", after.
  - eexists. split; [by apply run_book_missing|]. split.
    + exists "Book source directory not found at ", "".
      by rewrite append_nil_r.
    + intros _. split; [by apply find_book_src_missing|done].
Qed.

Lemma missing_book_src_reported_witness :
  Os.is_dir bookless_world (book_src_path_of bookless_world) = false /\
  exists msg,
    run bookless_world = (mkConsole [] ["Error: " +:+ msg], Ok 1%Z) /\
    mentions msg (Path.to_string (book_src_path_of bookless_world)) /\
    (Os.exists_ bookless_world (book_src_path_of bookless_world) = false ->
     find_book_src bookless_world = Raise (FileNotFoundError msg) /\
     msg = "Book source directory not found at " +:+
           Path.to_string (book_src_path_of bookless_world)).
Proof.
  split; [reflexivity|].
  apply (missing_book_src_reported bookless_world). reflexivity.
Defined.

(** Scenario C of the specification. *)
Example run_bookless :
  run bookless_world =
  (mkConsole [] ["Error: Book source directory not found at /repo/book/src"],
   Ok 1%Z).
Proof. reflexivity. Qed.

(** ** The tree *)

Section node_induction.
Variable P : node -> Prop.
Hypothesis HFile : forall t, P (File t).
Hypothesis HLink : forall t, P (Symlink t).
Hypothesis HDir : forall es, Forall (fun e => P (snd e)) es -> P (Dir es).

End node_induction.



Lemma symlinks_Dir es :
  FS.symlinks (Dir es) = list_sum (map (fun e => FS.symlinks (snd e)) es).
Proof.
  simpl. induction es as [|[name x] es IH]; simpl; [done|]. by rewrite IH.
Qed.











(** ** Trees without symbolic links *)

Lemma entry_symlinks c es x :
  FS.entry c es = Some x -> FS.symlinks x <= FS.symlinks (Dir es).
Proof.
  rewrite symlinks_Dir. induction es as [|[n y] es IH]; simpl; [done|].
  destruct (String.eqb n c).
  - intros [= ->]. lia.
  - intros H. specialize (IH H). lia.
Qed.

Lemma lookup_symlinks rel :
  forall n x, FS.lookup n rel = Some x -> FS.symlinks x <= FS.symlinks n.
Proof.
  induction rel as [|c rel IH]; intros n x; simpl.
  - by intros [= ->].
  - destruct n as [t|es|t]; try done.
    destruct (FS.entry c es) as [y|] eqn:Hentry; [|done].
    intros H. apply entry_symlinks in Hentry. apply IH in H. lia.
Qed.

Lemma lookup_no_symlink n rel t :
  FS.symlinks n = 0 -> FS.lookup n rel <> Some (Symlink t).
Proof. intros Hn H%lookup_symlinks. simpl in H. lia. Qed.

(** Without links a path made of valid names resolves to itself. *)
Lemma joinrealpath_plain d root rest :
  FS.symlinks root = 0 ->
  Forall (fun c => FS.valid_name c = true) rest ->
  forall path, FS.joinrealpath (S d) root path rest = (path ++ rest, true).
Proof.
  intros Hroot. induction 1 as [|c rest Hc _ IH]; intros path.
  - by rewrite joinrealpath_nil, app_nil_r.
  - rewrite joinrealpath_cons.
    unfold FS.valid_name in Hc.
    apply andb_true_iff in Hc as [[Hk Hdd]%andb_true_iff _].
    rewrite Hk. apply negb_true_iff in Hdd. rewrite Hdd. cbn [negb].
    destruct (FS.lookup root (path ++ [c])) as [[t|es|t]|] eqn:Hl;
      try (rewrite IH; by rewrite <- app_assoc).
    by apply lookup_no_symlink in Hl.
Qed.

Lemma resolve_plain w p :
  FS.symlinks (root w) = 0 -> canonical p -> Os.resolve w p = p.
Proof.
  intros Hroot [Habs Hval]. destruct p as [a ps]; simpl in *; subst a.
  unfold Os.resolve, Os.realpath. cbn [absolute parts].
  by rewrite joinrealpath_plain.
Qed.

(** ** The walk of the book *)








(** The dead pages for a set of references given as a list. *)
Lemma find_dead_pages_of_list w book_src l :
  find_dead_pages w book_src (list_to_set l) =
  sorted (map (Os.resolve w)
              (List.filter
                 (fun e => negb (String.eqb (Path.name e) "SUMMARY.md") &&
                           negb (bool_decide (Os.resolve w e ∈ l)))
                 (Os.rglob_md w book_src))).
Proof.
  unfold find_dead_pages. rewrite scan_entries_eq. do 2 f_equal.
  apply filter_ext. intros e. unfold is_dead. f_equal.
  rewrite <- bool_decide_not. apply bool_decide_ext.
  by rewrite elem_of_list_to_set.
Qed.


Lemma find_dead_pages_Permutation w book_src refs :
  find_dead_pages w book_src refs ≡ₚ
  map (Os.resolve w) (List.filter (is_dead w refs) (Os.rglob_md w book_src)).
Proof. unfold find_dead_pages. by rewrite sorted_Permutation, scan_entries_eq. Qed.









(** ** The scenarios of the specification *)

(** Scenario A: [orphan.md] is the one dead page and the status is 1. *)
Example scenario_a_dead_pages :
  dead_page_list scenario_a =
    Some [mkPath true ["repo"; "book"; "src"; "orphan.md"]] /\
  exit_status scenario_a = 1%Z.
Proof.
  assert (H : dead_page_list scenario_a =
              Some [mkPath true ["repo"; "book"; "src"; "orphan.md"]]).
  { unfold dead_page_list.
    replace (locator_ok scenario_a) with true by reflexivity.
    rewrite (parse_summary_of_list _ _ "[Intro](intro.md) [Guide](guide/start.md)"
               [mkPath true ["repo"; "book"; "src"; "intro.md"];
                mkPath true ["repo"; "book"; "src"; "guide"; "start.md"]])
      by (vm_compute; reflexivity).
    rewrite find_dead_pages_of_list. vm_compute. reflexivity. }
  split; [exact H|].
  pose proof (exit_status_cases scenario_a) as Hc. by rewrite H in Hc.
Qed.

(** Scenario B: with [orphan.md] linked as well the list is empty and the
    status is 0. *)
Example scenario_b_no_dead_pages :
  let w := book_world "[Intro](intro.md) [Guide](guide/start.md) [Orphan](orphan.md)"
             [("intro.md", File ""); ("orphan.md", File "");
              ("guide", Dir [("start.md", File "")])] in
  dead_page_list w = Some [] /\ exit_status w = 0%Z.
Proof.
  intros w.
  assert (H : dead_page_list w = Some []).
  { unfold dead_page_list.
    replace (locator_ok w) with true by reflexivity.
    rewrite (parse_summary_of_list _ _
               "[Intro](intro.md) [Guide](guide/start.md) [Orphan](orphan.md)"
               [mkPath true ["repo"; "book"; "src"; "intro.md"];
                mkPath true ["repo"; "book"; "src"; "guide"; "start.md"];
                mkPath true ["repo"; "book"; "src"; "orphan.md"]])
      by (vm_compute; reflexivity).
    rewrite find_dead_pages_of_list. vm_compute. reflexivity. }
  split; [exact H|].
  pose proof (exit_status_cases w) as Hc. by rewrite H in Hc.
Qed.

(** Scenario D: the book is there, [SUMMARY.md] is not. *)
Example scenario_d_no_summary :
  let w := mkWorld
             (Dir [("repo",
                    Dir [("qa", Dir [("book", Dir [("dead_pages.py", File "")])]);
                         ("book", Dir [("src", Dir [("intro.md", File "")])])])])
             [] "/repo/qa/book/dead_pages.py" in
  run w =
  (mkConsole [] ["Error: SUMMARY.md not found at /repo/book/src/SUMMARY.md"],
   Ok 1%Z).
Proof. reflexivity. Qed.

(** The path of the book is a regular file: the locator lets it pass and
    the run stops at the test for [SUMMARY.md]. *)
Example book_src_is_a_file :
  let w := mkWorld
             (Dir [("repo",
                    Dir [("qa", Dir [("book", Dir [("dead_pages.py", File "")])]);
                         ("book", Dir [("src", File "")])])])
             [] "/repo/qa/book/dead_pages.py" in
  find_book_src w = Ok book_src_path /\
  run w =
  (mkConsole [] ["Error: SUMMARY.md not found at /repo/book/src/SUMMARY.md"],
   Ok 1%Z).
Proof. split; reflexivity. Qed.

(** ** The link pattern *)

Lemma run_until_spec c s run rest :
  Re.run_until c s = Some (run, rest) <->
  s = run +:+ String c rest /\ Str.contains c run = false.
Proof.
  split.
  - revert run. induction s as [|d s IH]; intros run; simpl; [done|].
    destruct (Ascii.eqb_spec d c) as [->|Hne].
    + intros [= <- <-]. by split.
    + destruct (Re.run_until c s) as [[run' rest']|]; [|done].
      intros [= <- <-]. destruct (IH run' eq_refl) as [-> Hc].
      split; [done|]. simpl. by rewrite (proj2 (Ascii.eqb_neq d c) Hne).
  - intros [-> Hc]. induction run as [|d run IH].
    + simpl. by rewrite Ascii.eqb_refl.
    + simpl in Hc.
      change (String d run +:+ String c rest) with (String d (run +:+ String c rest)).
      simpl. destruct (Ascii.eqb d c); [done|]. by rewrite (IH Hc).
Qed.

(** X17.  A match of the pattern at the start of a text: [[], a label
    without []], []][(], a target without [)], [)]; label and target are
    not empty.  Group 2 is the target and the match ends at the first [)]
    behind it. *)
Lemma match_here_spec s target len :
  Re.match_here s = Some (target, len) <->
  exists label rest,
    s = "[" +:+ label +:+ "](" +:+ target +:+ ")" +:+ rest /\
    label <> "" /\ target <> "" /\
    Str.contains "]" label = false /\ Str.contains ")" target = false /\
    len = String.length label + String.length target + 4.
Proof.
  split.
  - unfold Re.match_here. destruct s as [|a s]; [done|].
    destruct (Ascii.eqb_spec a "[") as [->|Hne];
      [|by destruct a as [[] [] [] [] [] [] [] []]].
    destruct (Re.run_until "]" s) as [[label s1]|] eqn:H1; [|done].
    destruct s1 as [|b s2]; [done|].
    destruct (Ascii.eqb_spec b "(") as [->|Hne];
      [|by destruct b as [[] [] [] [] [] [] [] []]].
    destruct (Re.run_until ")" s2) as [[target' rest]|] eqn:H2; [|done].
    apply run_until_spec in H1 as [-> Hl]. apply run_until_spec in H2 as [-> Ht].
    destruct label as [|l0 label]; [done|].
    destruct target' as [|t0 target']; [done|].
    intros [= <- <-]. exists (String l0 label), rest.
    split; [|done]. change ("[" +:+ ?x) with (String "[" x). f_equal.
  - intros (label & rest & -> & Hl & Ht & Hcl & Hct & ->).
    change (Re.match_here (String "[" (label +:+ String "]" (String "(" (target +:+ String ")" rest))))
            = Some (target, String.length label + String.length target + 4)).
    unfold Re.match_here.
    rewrite (proj2 (run_until_spec "]" _ label _) (conj eq_refl Hcl)).
    rewrite (proj2 (run_until_spec ")" _ target _) (conj eq_refl Hct)).
    by destruct label, target.
Qed.

(** A page that is a link to a file outside the book: its canonical path
    is listed, [relative_to] raises while the report is printed, and the
    status is 1. *)
Example run_link_outside :
  let w := book_world "" [("ext.md", Symlink "/etc/hosts")] in
  find_dead_pages w book_src_path ∅ = [mkPath true ["etc"; "hosts"]] /\
  snd (run w) =
    Raise (ValueError "/etc/hosts is not in the subpath of /repo/book/src") /\
  exit_status w = 1%Z.
Proof.
  intros w. split; [|split].
  - change (∅ : gset PosixPath) with (list_to_set [] : gset PosixPath).
    rewrite find_dead_pages_of_list. vm_compute. reflexivity.
  - vm_compute. reflexivity.
  - vm_compute. reflexivity.
Qed.

(** * Further properties of the script *)

(** ** Link extraction *)

Lemma match_here_other d s :
  Ascii.eqb d "[" = false -> Re.match_here (String d s) = None.
Proof.
  intros H. unfold Re.match_here.
  by destruct d as [[] [] [] [] [] [] [] []].
Qed.

Lemma finditer_from_skip s1 s2 :
  Re.finditer_from (String.length s1) (s1 +:+ s2) = Re.finditer_from 0 s2.
Proof.
  induction s1 as [|a s1 IH]; [done|].
  change (String a s1 +:+ s2) with (String a (s1 +:+ s2)).
  change (String.length (String a s1)) with (S (String.length s1)).
  cbn [Re.finditer_from]. exact IH.
Qed.

Lemma finditer_no_bracket pre s :
  Str.contains "[" pre = false ->
  Re.finditer_from 0 (pre +:+ s) = Re.finditer_from 0 s.
Proof.
  induction pre as [|a pre IH]; [done|]. intros H. cbn [Str.contains] in H.
  destruct (Ascii.eqb a "[") eqn:E; [done|].
  change (String a pre +:+ s) with (String a (pre +:+ s)).
  cbn [Re.finditer_from]. rewrite (match_here_other a _ E). by apply IH.
Qed.

Lemma length_append s1 s2 :
  String.length (s1 +:+ s2) = String.length s1 + String.length s2.
Proof.
  induction s1 as [|a s1 IH]; [done|].
  change (String a s1 +:+ s2) with (String a (s1 +:+ s2)). simpl. by rewrite IH.
Qed.

Lemma match_here_link label target post :
  label <> "" -> target <> "" ->
  Str.contains "]" label = false -> Str.contains ")" target = false ->
  Re.match_here ("[" +:+ label +:+ "](" +:+ target +:+ ")" +:+ post) =
  Some (target, String.length label + String.length target + 4).
Proof.
  intros Hl Ht Hcl Hct.
  change (Re.match_here (String "[" (label +:+ String "]" (String "(" (target +:+ String ")" post))))
          = Some (target, String.length label + String.length target + 4)).
  unfold Re.match_here.
  rewrite (proj2 (run_until_spec "]" _ label _) (conj eq_refl Hcl)).
  rewrite (proj2 (run_until_spec ")" _ target _) (conj eq_refl Hct)).
  by destruct label, target.
Qed.

(** X1.  The scan is compositional: text without [[], then a link, then
    more text gives the target of the link followed by the targets of the
    rest.  The matches do not overlap and come in order of appearance. *)
Theorem finditer_first_link pre label target post :
  Str.contains "[" pre = false ->
  label <> "" -> target <> "" ->
  Str.contains "]" label = false -> Str.contains ")" target = false ->
  Re.finditer_group2
    (pre +:+ "[" +:+ label +:+ "](" +:+ target +:+ ")" +:+ post) =
  target :: Re.finditer_group2 post.
Proof.
  intros Hpre Hl Ht Hcl Hct. unfold Re.finditer_group2.
  rewrite (finditer_no_bracket pre _ Hpre).
  assert (Hm : Re.match_here ("[" +:+ label +:+ "](" +:+ target +:+ ")" +:+ post) =
               Some (target, String.length label + String.length target + 4)).
  { by apply match_here_link. }
  change ("[" +:+ label +:+ "](" +:+ target +:+ ")" +:+ post)
    with (String "[" (label +:+ "](" +:+ target +:+ ")" +:+ post)) in *.
  cbn [Re.finditer_from]. rewrite Hm. f_equal.
  replace (label +:+ "](" +:+ target +:+ ")" +:+ post)
    with ((label +:+ "](" +:+ target +:+ ")") +:+ post)
    by (by rewrite !append_assoc).
  replace (String.length label + String.length target + 4 - 1)
    with (String.length (label +:+ "](" +:+ target +:+ ")")).
  - apply finditer_from_skip.
  - rewrite !length_append. simpl. lia.
Qed.

Lemma finditer_first_link_witness :
  Str.contains "[" "# Summary - " = false /\
  "Intro" <> "" /\ "intro.md" <> "" /\
  Str.contains "]" "Intro" = false /\ Str.contains ")" "intro.md" = false /\
  Re.finditer_group2
    ("# Summary - " +:+ "[" +:+ "Intro" +:+ "](" +:+ "intro.md" +:+ ")" +:+ " end") =
  "intro.md" :: Re.finditer_group2 " end".
Proof.
  repeat (split; [done|]).
  by apply (finditer_first_link "# Summary - " "Intro" "intro.md" " end").
Defined.

Lemma finditer_from_no_bracket s k :
  Str.contains "[" s = false -> Re.finditer_from k s = [].
Proof.
  revert k; induction s as [|a s IH]; intros k; [done|]. simpl Str.contains.
  destruct (Ascii.eqb a "[") eqn:E; [done|]. intros H.
  cbn [Re.finditer_from]. destruct k; [|by apply IH].
  rewrite (match_here_other a _ E). by apply IH.
Qed.

(** X2.  A table of contents without any [[] links nothing: the set is
    empty. *)
Theorem parse_summary_no_bracket w sp content :
  read_text w sp = Ok content ->
  Str.contains "[" content = false ->
  parse_summary w sp = Ok ∅.
Proof.
  intros Hread Hno. unfold parse_summary. rewrite Hread.
  unfold Re.finditer_group2. by rewrite finditer_from_no_bracket.
Qed.

Lemma parse_summary_no_bracket_witness :
  let content := "# Summary (draft) without links" in
  let w := book_world content [] in
  read_text w summary_md_path = Ok content /\
  Str.contains "[" content = false /\
  parse_summary w summary_md_path = Ok ∅.
Proof.
  intros content w.
  assert (H1 : read_text w summary_md_path = Ok content) by reflexivity.
  assert (H2 : Str.contains "[" content = false) by reflexivity.
  split; [exact H1|]. split; [exact H2|].
  exact (parse_summary_no_bracket w summary_md_path content H1 H2).
Defined.

(** X3.  A target that is only an anchor is skipped: its turn of the loop
    leaves the set as it is. *)
Theorem anchor_only_target_skipped w sp files t :
  Str.startswith t "#" = true -> add_target w sp files t = files.
Proof.
  intros H. destruct t as [|c t]; [discriminate|]. cbn [Str.startswith] in H.
  destruct (Ascii.eqb_spec "#" c) as [<-|]; [|discriminate].
  rewrite add_target_eq.
  by replace (strip_fragment (String "#" t)) with "" by (by rewrite strip_fragment_before).
Qed.

Lemma anchor_only_target_skipped_witness :
  Str.startswith "#installation" "#" = true /\
  add_target (book_world "" []) summary_md_path ∅ "#installation" = ∅.
Proof.
  split; [reflexivity|].
  by apply (anchor_only_target_skipped (book_world "" []) summary_md_path ∅ "#installation").
Defined.

(** X4.  The set built by the loop depends on which targets are matched,
    not on their order or on how often each occurs. *)
Theorem targets_order_irrelevant w sp files (ts1 ts2 : list string) :
  (forall t, t ∈ ts1 <-> t ∈ ts2) ->
  foldl (add_target w sp) files ts1 = foldl (add_target w sp) files ts2.
Proof.
  intros Hsame. rewrite !foldl_add_target. f_equal.
  apply set_eq. intros p. rewrite !elem_of_list_to_set, !list_elem_of_fmap.
  assert (Hf : forall ts ts' : list string, (forall t, t ∈ ts -> t ∈ ts') ->
    forall t', t' ∈ List.filter is_local (map strip_fragment ts) ->
               t' ∈ List.filter is_local (map strip_fragment ts')).
  { intros ts ts' Hsub t'. rewrite !list_elem_of_In, !filter_In, !in_map_iff.
    intros [(t & <- & Ht) Hloc]. split; [|done]. exists t. split; [done|].
    apply list_elem_of_In, Hsub. by apply list_elem_of_In. }
  split; intros (t' & -> & Ht'); exists t'; (split; [done|]);
    eapply Hf; try exact Ht'; intros t; apply Hsame.
Qed.

Lemma targets_order_irrelevant_witness :
  let w := book_world "" [] in
  (forall t, t ∈ ["a.md"; "b.md"; "a.md"] <-> t ∈ ["b.md"; "a.md"]) /\
  foldl (add_target w summary_md_path) ∅ ["a.md"; "b.md"; "a.md"] =
  foldl (add_target w summary_md_path) ∅ ["b.md"; "a.md"].
Proof.
  intros w.
  assert (H : forall t : string, t ∈ ["a.md"; "b.md"; "a.md"] <-> t ∈ ["b.md"; "a.md"]).
  { intros t. rewrite !elem_of_cons, !elem_of_nil. tauto. }
  split; [exact H|].
  exact (targets_order_irrelevant w summary_md_path ∅ _ _ H).
Defined.

(** ** The list of dead pages and the set of references *)

(** X5.  A path that is in the set of references is never listed. *)
Theorem referenced_never_dead w book_src refs :
  Forall (fun p => p ∉ refs) (find_dead_pages w book_src refs).
Proof.
  apply Forall_forall. intros p (e & _ & _ & Hr & ->)%elem_of_find_dead_pages.
  exact Hr.
Qed.

Lemma filter_sublist_impl {A} (f g : A -> bool) (l : list A) :
  (forall x, f x = true -> g x = true) ->
  sublist (List.filter f l) (List.filter g l).
Proof.
  intros Himpl. induction l as [|x l IH]; simpl; [constructor|].
  destruct (f x) eqn:Ef.
  - rewrite (Himpl x Ef). by constructor.
  - destruct (g x); [by constructor|done].
Qed.

(** X6.  More references give fewer dead pages: with a larger set every
    page is listed at most as often as with the smaller one. *)
Theorem more_references_fewer_dead w book_src (refs refs' : gset PosixPath) :
  refs ⊆ refs' ->
  find_dead_pages w book_src refs' ⊆+ find_dead_pages w book_src refs.
Proof.
  intros Hsub. rewrite !find_dead_pages_Permutation.
  apply sublist_submseteq, (fmap_sublist (Os.resolve w)), filter_sublist_impl.
  intros e [Hn Hr]%is_dead_true. apply is_dead_true. split; [done|].
  intros Hin. apply Hr. by apply Hsub.
Qed.

Lemma more_references_fewer_dead_witness :
  let refs : gset PosixPath := ∅ in
  let refs' : gset PosixPath := {[ mkPath true ["repo"; "book"; "src"; "orphan.md"] ]} in
  refs ⊆ refs' /\
  find_dead_pages scenario_a book_src_path refs' ⊆+
  find_dead_pages scenario_a book_src_path refs.
Proof.
  intros refs refs'.
  assert (H : refs ⊆ refs') by apply empty_subseteq.
  split; [exact H|].
  exact (more_references_fewer_dead scenario_a book_src_path refs refs' H).
Defined.

(** X7.  Once every listed page is referenced nothing is left: with the
    dead pages added to the set of references the list is empty. *)
Theorem dead_pages_once_referenced w book_src refs :
  find_dead_pages w book_src
    (refs ∪ list_to_set (find_dead_pages w book_src refs)) = [].
Proof.
  destruct (find_dead_pages w book_src (refs ∪ _)) as [|p l] eqn:E; [done|].
  assert (Hp : p ∈ find_dead_pages w book_src
                     (refs ∪ list_to_set (find_dead_pages w book_src refs))).
  { rewrite E. by left. }
  apply elem_of_find_dead_pages in Hp as (e & He & Hn & Hr & ->).
  assert (Hr1 : Os.resolve w e ∉ refs).
  { intros Hin. apply Hr, elem_of_union. by left. }
  exfalso. apply Hr, elem_of_union. right.
  apply elem_of_list_to_set, elem_of_find_dead_pages. by exists e.
Qed.

(** ** What a run prints *)

Lemma for_each_print_pages book_src l c :
  Forall (fun p => is_Some (Path.relative_to p book_src)) l ->
  IO.for_each l (print_page book_src) c =
  (mkConsole (stdout c ++ map (page_line book_src) l) (stderr c), Ok tt).
Proof.
  intros Hall. revert c. induction Hall as [|p l [rel Hp] _ IH]; intros c.
  - simpl. unfold IO.ret. destruct c. by rewrite app_nil_r.
  - cbn [IO.for_each]. unfold IO.bind at 1.
    unfold print_page at 1. rewrite Hp. unfold IO.print. rewrite IH.
    cbn [stdout stderr map].
    replace (page_line book_src p) with ("  " +:+ Path.to_string rel)
      by (unfold page_line; by rewrite Hp).
    by rewrite <- app_assoc.
Qed.

Lemma for_each_print_pages_fail book_src l1 p l2 c :
  Forall (fun p => is_Some (Path.relative_to p book_src)) l1 ->
  Path.relative_to p book_src = None ->
  IO.for_each (l1 ++ p :: l2) (print_page book_src) c =
  (mkConsole (stdout c ++ map (page_line book_src) l1) (stderr c),
   Raise (ValueError (Path.to_string p +:+ " is not in the subpath of " +:+
                      Path.to_string book_src))).
Proof.
  intros Hall Hp. revert c. induction Hall as [|q l1 [rel Hq] _ IH]; intros c.
  - cbn [app IO.for_each]. unfold IO.bind, print_page. rewrite Hp.
    unfold IO.lift. destruct c. by rewrite app_nil_r.
  - rewrite <- app_comm_cons. cbn [IO.for_each]. unfold IO.bind at 1.
    unfold print_page at 1. rewrite Hq. unfold IO.print. rewrite IH.
    cbn [stdout stderr map].
    replace (page_line book_src q) with ("  " +:+ Path.to_string rel)
      by (unfold page_line; by rewrite Hq).
    by rewrite <- app_assoc.
Qed.

(** The run once the locator has succeeded and the references are read. *)
Lemma run_report w refs :
  locator_ok w = true ->
  parse_summary w (summary_path_of w) = Ok refs ->
  run w =
  let book_src := book_src_path_of w in
  let dead_pages := find_dead_pages w book_src refs in
  match dead_pages with
  | [] =>
      (mkConsole [checking_line book_src; found_line refs;
                  newline +:+ "No dead pages found!"] [], Ok 0%Z)
  | _ :: _ =>
      match IO.for_each dead_pages (print_page book_src)
              (mkConsole [checking_line book_src; found_line refs;
                          dead_header dead_pages] []) with
      | (c, Ok _) => (c, Ok 1%Z)
      | (c, Raise e) => (c, Raise e)
      end
  end.
Proof.
  unfold locator_ok. intros [H1 H2]%andb_true_iff Hp.
  unfold run, main. rewrite (find_book_src_found w H1).
  fold (summary_path_of w). rewrite H2. cbn [negb].
  unfold mbind, IO_bind, IO.bind, IO.print, IO.lift, mret, IO_ret, IO.ret.
  cbn [stdout stderr app]. rewrite Hp. cbv zeta.
  destruct (find_dead_pages w (book_src_path_of w) refs) as [|p l]; [done|].
  cbn [stdout stderr app].
  by destruct (IO.for_each _ _ _) as [c [[]|e]].
Qed.

(** X8.  Whenever the locator fails, on the directory or on
    [SUMMARY.md], nothing is printed on standard output, standard error
    gets one line that starts with [Error:] and names the path of the
    book, and [main] returns 1. *)
Theorem locator_failure_report w :
  locator_ok w = false ->
  exists msg,
    run w = (mkConsole [] ["Error: " +:+ msg], Ok 1%Z) /\
    mentions msg (Path.to_string (book_src_path_of w)).
Proof.
  unfold locator_ok. intros Hloc.
  destruct (Os.exists_ w (book_src_path_of w)) eqn:H1.
  - simpl in Hloc. eexists. split; [by apply run_summary_missing|].
    destruct (to_string_summary_path w) as [after ->].
    by exists "SUMMARY.md not found at ", after.
  - eexists. split; [by apply run_book_missing|].
    exists "Book source directory not found at ", "". by rewrite append_nil_r.
Qed.

Lemma locator_failure_report_witness :
  let w := mkWorld
             (Dir [("repo",
                    Dir [("qa", Dir [("book", Dir [("dead_pages.py", File "")])]);
                         ("book", Dir [("src", Dir [("intro.md", File "")])])])])
             [] "/repo/qa/book/dead_pages.py" in
  locator_ok w = false /\
  exists msg,
    run w = (mkConsole [] ["Error: " +:+ msg], Ok 1%Z) /\
    mentions msg (Path.to_string (book_src_path_of w)).
Proof.
  intros w. assert (H : locator_ok w = false) by reflexivity.
  split; [exact H|]. exact (locator_failure_report w H).
Defined.

(** X9.  When [SUMMARY.md] is found and cannot be read, the exception of
    [read_text] leaves [main] as it is, after the first line of the
    report and with nothing on standard error. *)
Theorem unreadable_summary_propagates w e :
  locator_ok w = true ->
  read_text w (summary_path_of w) = Raise e ->
  run w = (mkConsole [checking_line (book_src_path_of w)] [], Raise e).
Proof.
  unfold locator_ok. intros [H1 H2]%andb_true_iff Hread.
  unfold run, main. rewrite (find_book_src_found w H1).
  fold (summary_path_of w). rewrite H2. cbn [negb].
  unfold mbind, IO_bind, IO.bind, IO.print, IO.lift.
  cbn [stdout stderr app]. unfold parse_summary. by rewrite Hread.
Qed.

Lemma unreadable_summary_propagates_witness :
  let w := mkWorld
             (Dir [("repo",
                    Dir [("qa", Dir [("book", Dir [("dead_pages.py", File "")])]);
                         ("book", Dir [("src", Dir [("SUMMARY.md", Dir [])])])])])
             [] "/repo/qa/book/dead_pages.py" in
  let e := IsADirectoryError "/repo/book/src/SUMMARY.md" in
  locator_ok w = true /\
  read_text w (summary_path_of w) = Raise e /\
  run w = (mkConsole [checking_line (book_src_path_of w)] [], Raise e).
Proof.
  intros w e.
  assert (H1 : locator_ok w = true) by reflexivity.
  assert (H2 : read_text w (summary_path_of w) = Raise e) by reflexivity.
  split; [exact H1|]. split; [exact H2|].
  exact (unreadable_summary_propagates w e H1 H2).
Defined.

(** X10.  When every dead page lies below the path of the book, the
    report is complete: the three head lines, then one line for each dead
    page in the order of the sorted list, nothing on standard error, and
    [main] returns 0 for an empty list and 1 otherwise. *)
Theorem report_lists_dead_pages w refs :
  locator_ok w = true ->
  parse_summary w (summary_path_of w) = Ok refs ->
  Forall (fun p => is_Some (Path.relative_to p (book_src_path_of w)))
         (find_dead_pages w (book_src_path_of w) refs) ->
  run w =
  let book_src := book_src_path_of w in
  let dead_pages := find_dead_pages w book_src refs in
  match dead_pages with
  | [] =>
      (mkConsole [checking_line book_src; found_line refs;
                  newline +:+ "No dead pages found!"] [], Ok 0%Z)
  | _ :: _ =>
      (mkConsole ([checking_line book_src; found_line refs;
                   dead_header dead_pages] ++
                  map (page_line book_src) dead_pages) [], Ok 1%Z)
  end.
Proof.
  intros Hloc Hp Hall. rewrite (run_report w refs Hloc Hp). cbv zeta.
  destruct (find_dead_pages w (book_src_path_of w) refs) as [|p l]; [done|].
  by rewrite (for_each_print_pages _ _ _ Hall).
Qed.

Lemma report_lists_dead_pages_witness :
  let refs : gset PosixPath :=
    list_to_set [mkPath true ["repo"; "book"; "src"; "intro.md"];
                 mkPath true ["repo"; "book"; "src"; "guide"; "start.md"]] in
  locator_ok scenario_a = true /\
  parse_summary scenario_a (summary_path_of scenario_a) = Ok refs /\
  find_dead_pages scenario_a (book_src_path_of scenario_a) refs =
    [mkPath true ["repo"; "book"; "src"; "orphan.md"]] /\
  run scenario_a =
    (mkConsole [checking_line book_src_path; found_line refs;
                dead_header [mkPath true ["repo"; "book"; "src"; "orphan.md"]];
                "  orphan.md"] [], Ok 1%Z).
Proof.
  intros refs.
  assert (H1 : locator_ok scenario_a = true) by reflexivity.
  assert (H2 : parse_summary scenario_a (summary_path_of scenario_a) = Ok refs).
  { apply (parse_summary_of_list _ _ "[Intro](intro.md) [Guide](guide/start.md)");
      vm_compute; reflexivity. }
  assert (H3 : find_dead_pages scenario_a (book_src_path_of scenario_a) refs =
               [mkPath true ["repo"; "book"; "src"; "orphan.md"]]).
  { unfold refs. rewrite find_dead_pages_of_list. vm_compute. reflexivity. }
  assert (H4 : Forall (fun p => is_Some (Path.relative_to p (book_src_path_of scenario_a)))
                      (find_dead_pages scenario_a (book_src_path_of scenario_a) refs)).
  { rewrite H3. constructor; [|constructor]. by eexists. }
  split; [exact H1|]. split; [exact H2|]. split; [exact H3|].
  pose proof (report_lists_dead_pages scenario_a refs H1 H2 H4) as H.
  cbv zeta in H. rewrite H3 in H. exact H.
Defined.

(** X11.  The report stops at the first dead page that does not lie below
    the path of the book: the pages before it are printed, [relative_to]
    raises [ValueError], and the exception leaves [main]. *)
Theorem report_stops_outside_book w refs l1 p l2 :
  locator_ok w = true ->
  parse_summary w (summary_path_of w) = Ok refs ->
  find_dead_pages w (book_src_path_of w) refs = l1 ++ p :: l2 ->
  Forall (fun q => is_Some (Path.relative_to q (book_src_path_of w))) l1 ->
  Path.relative_to p (book_src_path_of w) = None ->
  run w =
  (mkConsole ([checking_line (book_src_path_of w); found_line refs;
               dead_header (l1 ++ p :: l2)] ++
              map (page_line (book_src_path_of w)) l1) [],
   Raise (ValueError (Path.to_string p +:+ " is not in the subpath of " +:+
                      Path.to_string (book_src_path_of w)))).
Proof.
  intros Hloc Hp Hdead Hall Hout. rewrite (run_report w refs Hloc Hp). cbv zeta.
  rewrite Hdead. rewrite (for_each_print_pages_fail _ _ _ _ _ Hall Hout).
  by destruct l1.
Qed.

Lemma report_stops_outside_book_witness :
  let w := book_world "" [("a.md", File ""); ("ext.md", Symlink "/etc/hosts")] in
  let a_md := mkPath true ["repo"; "book"; "src"; "a.md"] in
  let hosts := mkPath true ["etc"; "hosts"] in
  find_dead_pages w (book_src_path_of w) ∅ = [hosts; a_md] /\
  run w =
  (mkConsole [checking_line (book_src_path_of w); found_line ∅;
              dead_header [hosts; a_md]] [],
   Raise (ValueError "/etc/hosts is not in the subpath of /repo/book/src")).
Proof.
  intros w a_md hosts.
  assert (H1 : locator_ok w = true) by reflexivity.
  assert (H2 : parse_summary w (summary_path_of w) = Ok ∅).
  { by rewrite (parse_summary_of_list _ _ "" []) by (vm_compute; reflexivity). }
  assert (H3 : find_dead_pages w (book_src_path_of w) ∅ = [] ++ hosts :: [a_md]).
  { change (∅ : gset PosixPath) with (list_to_set [] : gset PosixPath).
    rewrite find_dead_pages_of_list. vm_compute. reflexivity. }
  split; [exact H3|].
  exact (report_stops_outside_book w ∅ [] hosts [a_md] H1 H2 H3
           (List.Forall_nil _) eq_refl).
Defined.

(** ** Trees without links: the locator and the report *)






Lemma split_no_sep c s :
  Forall (fun x => Str.contains c x = false) (Str.split c s).
Proof.
  induction s as [|d s IH]; simpl; [by repeat constructor|].
  destruct (Ascii.eqb d c) eqn:E; [by constructor|].
  destruct (Str.split c s) as [|x xs]; [by repeat constructor; simpl; rewrite E|].
  apply Forall_cons in IH as [Hx Hxs]. constructor; [|done].
  simpl. by rewrite E.
Qed.

Lemma Forall_removelast {A} (P : A -> Prop) l : Forall P l -> Forall P (removelast l).
Proof.
  induction 1 as [|x l Hx Hl IH]; simpl; [constructor|].
  destruct l; [constructor|]. by constructor.
Qed.

(** Without links the resolved path is made of valid names. *)
Lemma joinrealpath_valid d root rest :
  FS.symlinks root = 0 ->
  Forall (fun x => Str.contains "/" x = false) rest ->
  forall path,
    Forall (fun c => FS.valid_name c = true) path ->
    Forall (fun c => FS.valid_name c = true)
           (fst (FS.joinrealpath (S d) root path rest)).
Proof.
  intros Hroot. induction 1 as [|c rest Hc _ IH]; intros path Hpath.
  - by rewrite joinrealpath_nil.
  - rewrite joinrealpath_cons.
    destruct (Path.kept c) eqn:Hk; cbn [negb]; [|by apply IH].
    destruct (String.eqb c "..") eqn:Hdd; [by apply IH, Forall_removelast|].
    assert (Hnew : Forall (fun c => FS.valid_name c = true) (path ++ [c])).
    { apply Forall_app. split; [done|]. constructor; [|constructor].
      unfold FS.valid_name. by rewrite Hk, Hdd, Hc. }
    destruct (FS.lookup root (path ++ [c])) as [[t|es|t]|] eqn:Hl;
      try by apply IH.
    by apply lookup_no_symlink in Hl.
Qed.

(** X13.  In a tree without symbolic links, when [__file__] is an absolute
    path, the path the locator tries is canonical: absolute and made of
    valid names, the last two being [book] and [src]. *)
Theorem book_src_path_canonical_of_script w :
  FS.symlinks (root w) = 0 ->
  Str.startswith (script_file w) "/" = true ->
  canonical (book_src_path_of w) /\
  exists base, parts (book_src_path_of w) = base ++ ["book"; "src"].
Proof.
  intros Hroot Habs.
  assert (Hparts : parts (book_src_path_of w) =
    removelast (removelast (removelast
      (Os.realpath w (Path.of_string (script_file w))))) ++ ["book"; "src"]).
  { change (parts (book_src_path_of w)) with
      ((removelast (removelast (removelast
          (Os.realpath w (Path.of_string (script_file w))))) ++ ["book"]) ++ ["src"]).
    by rewrite <- app_assoc. }
  split; [|by eexists]. split; [apply book_src_absolute|].
  rewrite Hparts. apply Forall_app. split; [|by repeat constructor].
  do 3 apply Forall_removelast.
  unfold Os.realpath, Path.of_string. cbn [absolute parts]. rewrite Habs.
  apply joinrealpath_valid; [done| |constructor].
  apply Forall_forall. intros x Hx%list_elem_of_In%filter_In.
  destruct Hx as [Hx _]. apply list_elem_of_In in Hx.
  by apply (proj1 (Forall_forall _ _) (split_no_sep "/" (script_file w))).
Qed.

Lemma book_src_path_canonical_of_script_witness :
  FS.symlinks (root scenario_a) = 0 /\
  Str.startswith (script_file scenario_a) "/" = true /\
  canonical (book_src_path_of scenario_a) /\
  exists base, parts (book_src_path_of scenario_a) = base ++ ["book"; "src"].
Proof.
  split; [reflexivity|]. split; [reflexivity|].
  exact (book_src_path_canonical_of_script scenario_a eq_refl eq_refl).
Defined.

(** X14.  The rule of the locator: in a tree without symbolic links, for a
    script at the canonical path [base/d1/d2/f] the book is looked for at
    [base/book/src], two levels above the directory of the script. *)
Theorem book_src_two_levels_up w base d1 d2 f :
  FS.symlinks (root w) = 0 ->
  Path.of_string (script_file w) = mkPath true (base ++ [d1; d2; f]) ->
  Forall (fun c => FS.valid_name c = true) (base ++ [d1; d2; f]) ->
  book_src_path_of w = mkPath true (base ++ ["book"; "src"]).
Proof.
  intros Hroot Hscript Hvalid.
  assert (Hres : Os.resolve w (Path.of_string (script_file w)) =
                 mkPath true (base ++ [d1; d2; f])).
  { rewrite Hscript. by apply resolve_plain. }
  unfold book_src_path_of. rewrite Hres.
  unfold Path.parent. cbn [absolute parts].
  replace (base ++ [d1; d2; f]) with (((base ++ [d1]) ++ [d2]) ++ [f])
    by (by rewrite <- !app_assoc).
  rewrite !removelast_last.
  change (mkPath true base // "book" // "src")
    with (mkPath true ((base ++ ["book"]) ++ ["src"])).
  by rewrite <- app_assoc.
Qed.

Lemma book_src_two_levels_up_witness :
  FS.symlinks (root scenario_a) = 0 /\
  Path.of_string (script_file scenario_a) =
    mkPath true (["repo"] ++ ["qa"; "book"; "dead_pages.py"]) /\
  Forall (fun c => FS.valid_name c = true)
         (["repo"] ++ ["qa"; "book"; "dead_pages.py"]) /\
  book_src_path_of scenario_a = mkPath true (["repo"] ++ ["book"; "src"]).
Proof.
  assert (H3 : Forall (fun c => FS.valid_name c = true)
                      (["repo"] ++ ["qa"; "book"; "dead_pages.py"]))
    by (repeat constructor).
  split; [reflexivity|]. split; [reflexivity|]. split; [exact H3|].
  exact (book_src_two_levels_up scenario_a ["repo"] "qa" "book" "dead_pages.py"
           eq_refl eq_refl H3).
Defined.



(** ** The working directory *)

Section SameTree.
Variables w1 w2 : World.
Hypothesis Hroot : root w1 = root w2.

Lemma realpath_absolute p :
  absolute p = true -> Os.realpath w1 p = Os.realpath w2 p.
Proof. intros H. unfold Os.realpath. by rewrite Hroot, H. Qed.

Lemma resolve_absolute p :
  absolute p = true -> Os.resolve w1 p = Os.resolve w2 p.
Proof. intros H. unfold Os.resolve. by rewrite realpath_absolute. Qed.

Lemma stat_absolute p : absolute p = true -> Os.stat w1 p = Os.stat w2 p.
Proof. intros H. unfold Os.stat. by rewrite realpath_absolute, Hroot. Qed.

Lemma exists_absolute p : absolute p = true -> Os.exists_ w1 p = Os.exists_ w2 p.
Proof. intros H. unfold Os.exists_. by rewrite stat_absolute. Qed.

Lemma read_text_absolute p : absolute p = true -> read_text w1 p = read_text w2 p.
Proof. intros H. unfold read_text. by rewrite stat_absolute. Qed.

Lemma rglob_md_absolute p :
  absolute p = true -> Os.rglob_md w1 p = Os.rglob_md w2 p.
Proof. intros H. unfold Os.rglob_md. by rewrite stat_absolute. Qed.

Lemma joinpath_absolute p t : absolute p = true -> absolute (p // t) = true.
Proof.
  intros H. unfold Path.joinpath.
  destruct (absolute (Path.of_string t)) eqn:E; [done|]. by simpl.
Qed.

Lemma parse_summary_absolute sp :
  absolute sp = true -> parse_summary w1 sp = parse_summary w2 sp.
Proof.
  intros H. unfold parse_summary. rewrite (read_text_absolute sp H).
  destruct (read_text w2 sp) as [content|e]; [|done]. f_equal.
  rewrite !foldl_add_target. do 2 f_equal. apply map_ext. intros t.
  unfold resolve_target. apply resolve_absolute, joinpath_absolute. exact H.
Qed.

Lemma elem_of_rglob_md_absolute w p e :
  e ∈ Os.rglob_md w p -> absolute e = absolute p.
Proof.
  unfold Os.rglob_md. destruct (Os.stat w p) as [[t|es|t]|];
    try by intros ?%elem_of_nil.
  by intros (ps & -> & _)%list_elem_of_fmap.
Qed.

Lemma find_dead_pages_absolute book_src refs :
  absolute book_src = true ->
  find_dead_pages w1 book_src refs = find_dead_pages w2 book_src refs.
Proof.
  intros H. unfold find_dead_pages. f_equal. rewrite !scan_entries_eq.
  rewrite (rglob_md_absolute book_src H).
  assert (Hres : forall e, In e (Os.rglob_md w2 book_src) ->
                           Os.resolve w1 e = Os.resolve w2 e).
  { intros e He%list_elem_of_In. apply resolve_absolute.
    by rewrite (elem_of_rglob_md_absolute _ _ _ He). }
  rewrite (filter_ext_in (is_dead w1 refs) (is_dead w2 refs)).
  - apply map_ext_in. intros e [He _]%filter_In. by apply Hres.
  - intros e He. unfold is_dead. by rewrite (Hres e He).
Qed.
End SameTree.

(** X16.  When [__file__] is an absolute path the working directory plays
    no part: two runs that differ only in it print the same and end the
    same.  Relative link targets are resolved from the directory of
    [SUMMARY.md], never from the working directory. *)
Theorem run_cwd_irrelevant tree cwd1 cwd2 file :
  Str.startswith file "/" = true ->
  run (mkWorld tree cwd1 file) = run (mkWorld tree cwd2 file).
Proof.
  intros Habs. set (w1 := mkWorld tree cwd1 file). set (w2 := mkWorld tree cwd2 file).
  assert (Hroot : root w1 = root w2) by reflexivity.
  assert (Hbook : book_src_path_of w1 = book_src_path_of w2).
  { unfold book_src_path_of.
    rewrite (resolve_absolute w1 w2 Hroot (Path.of_string (script_file w1))); [done|].
    exact Habs. }
  pose proof (book_src_absolute w2) as Hb.
  assert (Hs : absolute (book_src_path_of w2 // "SUMMARY.md") = true)
    by (by apply joinpath_absolute).
  unfold run, main, find_book_src. rewrite Hbook.
  rewrite (exists_absolute w1 w2 Hroot _ Hb).
  destruct (Os.exists_ w2 (book_src_path_of w2)); cbn [negb]; [|done].
  rewrite (exists_absolute w1 w2 Hroot _ Hs).
  destruct (Os.exists_ w2 (book_src_path_of w2 // "SUMMARY.md")); cbn [negb]; [|done].
  rewrite (parse_summary_absolute w1 w2 Hroot _ Hs).
  unfold mbind, IO_bind, IO.bind, IO.print, IO.lift. cbn [stdout stderr app].
  destruct (parse_summary w2 (book_src_path_of w2 // "SUMMARY.md")) as [refs|e]; [|done].
  by rewrite (find_dead_pages_absolute w1 w2 Hroot _ refs Hb).
Qed.

Lemma run_cwd_irrelevant_witness :
  Str.startswith "/repo/qa/book/dead_pages.py" "/" = true /\
  run (mkWorld (root scenario_a) [] "/repo/qa/book/dead_pages.py") =
  run (mkWorld (root scenario_a) ["tmp"; "work"] "/repo/qa/book/dead_pages.py").
Proof.
  split; [reflexivity|].
  exact (run_cwd_irrelevant (root scenario_a) [] ["tmp"; "work"]
           "/repo/qa/book/dead_pages.py" eq_refl).
Defined.

(** ** References that match no entry, and the lines of the report *)

(** X18.  A reference that is the canonical path of no entry of the walk
    changes nothing: a link of [SUMMARY.md] to a file that is not there is
    accepted in silence. *)
Theorem unmatched_reference_ignored w book_src refs p :
  (forall e, e ∈ Os.rglob_md w book_src -> Os.resolve w e <> p) ->
  find_dead_pages w book_src ({[ p ]} ∪ refs) = find_dead_pages w book_src refs.
Proof.
  intros Hno. unfold find_dead_pages. rewrite !scan_entries_eq. do 2 f_equal.
  apply filter_ext_in. intros e He%list_elem_of_In. unfold is_dead. f_equal.
  apply bool_decide_ext. rewrite elem_of_union, elem_of_singleton.
  specialize (Hno e He). tauto.
Qed.

Lemma unmatched_reference_ignored_witness :
  let p := mkPath true ["repo"; "book"; "src"; "missing.md"] in
  (forall e, e ∈ Os.rglob_md scenario_a book_src_path ->
             Os.resolve scenario_a e <> p) /\
  find_dead_pages scenario_a book_src_path ({[ p ]} ∪ ∅) =
  find_dead_pages scenario_a book_src_path ∅.
Proof.
  intros p.
  assert (H : forall e, e ∈ Os.rglob_md scenario_a book_src_path ->
                        Os.resolve scenario_a e <> p).
  { intros e He Heq.
    assert (Hp : p ∈ map (Os.resolve scenario_a) (Os.rglob_md scenario_a book_src_path)).
    { apply list_elem_of_fmap. by exists e. }
    vm_compute in Hp. repeat (apply elem_of_cons in Hp as [Hp|Hp]; [discriminate|]).
    by apply elem_of_nil in Hp. }
  split; [exact H|].
  exact (unmatched_reference_ignored scenario_a book_src_path ∅ p H).
Defined.



